(** * Two-player Tic-Tac-Toe: the game engine and its status line

    A shallow embedding of [src/vite_frontend/src/main.js]: the board
    helpers ([getWinningLine], [getWinner], [isDraw]), the two mutators of
    the global [state] object ([handleMove], [resetGame]) and the status
    readout ([updateStatus]).  The single mutable [state] object of the
    script is threaded explicitly: every mutator is a function
    [State -> State].  [render] and the elements it writes to are modelled
    as a [Page] record, and the two mutators together with their closing
    [render()] as functions on the pair of state and page. *)

From Stdlib Require Import Ascii.
From stdpp Require Import base decidable option list strings pretty.

(** ** Values held by the board *)

(** The two player symbols, the strings ['X'] and ['O'] of the script. *)
Inductive Mark : Type := X | O.

(** What reading [board[i]] can give: [null] (an empty cell, as
    [Array(9).fill(null)] creates it), a mark, or [undefined] (an index
    past the end of the array, or a hole left when the array was extended
    by a write past its end). *)
Inductive Cell : Type :=
  | CNull
  | CUndef
  | CMark (m : Mark).

#[global] Instance Mark_eq_dec : EqDecision Mark.
Proof. solve_decision. Defined.

#[global] Instance Cell_eq_dec : EqDecision Cell.
Proof. solve_decision. Defined.

(** JavaScript truthiness of a cell value: only the non-empty strings
    ['X'] and ['O'] are truthy, [null] and [undefined] are falsy. *)
Definition truthy (c : Cell) : bool :=
  match c with
  | CMark _ => true
  | CNull | CUndef => false
  end.

(** [c1 === c2] on cell values. *)
Definition strict_eq (c1 c2 : Cell) : bool := bool_decide (c1 = c2).

(** ** The board as a JavaScript array *)

Abbreviation Board := (list Cell).

(** [board[i]]: [undefined] past the end. *)
Definition get (board : Board) (i : nat) : Cell :=
  default CUndef (board !! i).

(** [board[i] = v]: in range the element is overwritten; past the end the
    array grows, the skipped positions being holes. *)
Definition set (board : Board) (i : nat) (v : Cell) : Board :=
  if decide (i < length board) then <[i:=v]> board
  else board ++ replicate (i - length board) CUndef ++ [v].

(** A line is a three-element array of indices. *)
Abbreviation Line := (nat * nat * nat)%type.

Definition WIN_LINES : list Line :=
  [ (0, 1, 2);
    (3, 4, 5);
    (6, 7, 8);

    (0, 3, 6);
    (1, 4, 7);
    (2, 5, 8);

    (0, 4, 8);
    (2, 4, 6) ].

(** The test of the loop body of [getWinningLine]:
    [board[a] && board[a] === board[b] && board[a] === board[c]]. *)
Definition lineWins (board : Board) (l : Line) : bool :=
  let '(a, b, c) := l in
  truthy (get board a)
  && strict_eq (get board a) (get board b)
  && strict_eq (get board a) (get board c).

(** The [for (const [a, b, c] of ...)] loop with its early [return]. *)
Fixpoint scanLines (lines : list Line) (board : Board) : option Line :=
  match lines with
  | [] => None
  | l :: rest => if lineWins board l then Some l else scanLines rest board
  end.

Definition getWinningLine (board : Board) : option Line :=
  scanLines WIN_LINES board.

(** [line ? board[line[0]] : null] *)
Definition getWinner (board : Board) : Cell :=
  match getWinningLine board with
  | Some (a, _, _) => get board a
  | None => CNull
  end.

(** [board.every((c) => c !== null) && !getWinner(board)].  [every] skips
    holes, and [undefined !== null] holds, so either way a [CUndef] entry
    passes the test. *)
Definition isDraw (board : Board) : bool :=
  forallb (fun c => negb (strict_eq c CNull)) board
  && negb (truthy (getWinner board)).

(** ** The game state *)

(** The fields of the [state] object.  [moveCount] is a JavaScript number
    that only ever grows by one from 0, so it stays an exact integer. *)
Record State : Type := mkState {
  board : Board;
  current : Mark;
  winner : option Mark;
  winningLine : option Line;
  moveCount : nat;
}.

Definition emptyBoard : Board := replicate 9 CNull.

(** The [state] object as the script creates it. *)
Definition initialState : State :=
  {| board := emptyBoard;
     current := X;
     winner := None;
     winningLine := None;
     moveCount := 0 |}.

(** [state.current === 'X' ? 'O' : 'X'] *)
Definition other (m : Mark) : Mark :=
  match m with
  | X => O
  | O => X
  end.

(** [handleMove(idx)], on the state; the closing [render()] only writes to
    the page.  The cell buttons call it with their own index 0..8; the
    function itself takes any array index. *)
Definition handleMove (idx : nat) (s : State) : State :=
  if bool_decide (is_Some (winner s)) then s
  else if truthy (get (board s) idx) then s
  else if isDraw (board s) then s
  else
    let board' := set (board s) idx (CMark (current s)) in
    let moveCount' := S (moveCount s) in
    match getWinningLine board' with
    | Some line =>
        {| board := board';
           current := current s;
           winner := Some (current s);
           winningLine := Some line;
           moveCount := moveCount' |}
    | None =>
        if negb (isDraw board') then
          {| board := board';
             current := other (current s);
             winner := winner s;
             winningLine := winningLine s;
             moveCount := moveCount' |}
        else
          {| board := board';
             current := current s;
             winner := winner s;
             winningLine := winningLine s;
             moveCount := moveCount' |}
    end.

(** [resetGame(hard = false)] *)
Definition resetGame (hard : bool) (s : State) : State :=
  {| board := replicate 9 CNull;
     current := X;
     winner := None;
     winningLine := None;
     moveCount := if hard then 0 else 0 |}.

(** ** The status readout *)

Definition markText (m : Mark) : string :=
  match m with
  | X => "X"
  | O => "O"
  end.

(** What [updateStatus] assigns to the status element: markup through
    [innerHTML], or plain text through [textContent]. *)
Inductive Content : Type :=
  | InnerHTML (markup : string)
  | TextContent (text : string).

Record StatusEl : Type := mkStatusEl {
  content : Content;
  classList : list string;
}.

Definition classAdd (c : string) (cl : list string) : list string :=
  if bool_decide (c ∈ cl) then cl else cl ++ [c].

Definition classRemove (c : string) (cl : list string) : list string :=
  filter (fun c' => c' ≠ c) cl.

Definition updateStatus (s : State) (el : StatusEl) : StatusEl :=
  match winner s with
  | Some w =>
      {| content := InnerHTML ("Winner: <strong>" +:+ markText w +:+ "</strong>");
         classList := classRemove "status--draw" (classAdd "status--done" (classList el)) |}
  | None =>
      if isDraw (board s) then
        {| content := TextContent "It's a draw.";
           classList := classAdd "status--draw" (classAdd "status--done" (classList el)) |}
      else
        {| content := InnerHTML ("Turn: <strong>" +:+ markText (current s) +:+ "</strong>");
           classList := classRemove "status--draw" (classRemove "status--done" (classList el)) |}
  end.

(** The text a piece of markup shows: everything outside its tags. *)
Fixpoint stripTags (inTag : bool) (markup : string) : string :=
  match markup with
  | EmptyString => EmptyString
  | String ch rest =>
      if inTag then stripTags (negb (Ascii.eqb ch ">"%char)) rest
      else if Ascii.eqb ch "<"%char then stripTags true rest
      else String ch (stripTags false rest)
  end.

Definition renderedText (c : Content) : string :=
  match c with
  | InnerHTML markup => stripTags false markup
  | TextContent text => text
  end.

(** The status element before the first render: class [status], no text. *)
Definition statusEl0 : StatusEl :=
  {| content := TextContent EmptyString; classList := ["status"] |}.

Definition statusText (s : State) : string :=
  renderedText (content (updateStatus s statusEl0)).

(** ** Sequences of user commands *)

(** A click (or Enter/Space) on a cell, or one of the two reset buttons. *)
Inductive Command : Type :=
  | CellActivated (idx : nat)
  | ResetClicked (hard : bool).

Definition step (s : State) (c : Command) : State :=
  match c with
  | CellActivated idx => handleMove idx s
  | ResetClicked hard => resetGame hard s
  end.

Definition run (cmds : list Command) (s : State) : State := foldl step s cmds.

Definition playMoves (idxs : list nat) (s : State) : State :=
  foldl (fun s idx => handleMove idx s) s idxs.

(** Scenarios of the specification, replayed on the model. *)
Definition scenarioA : list nat := [0; 3; 1; 4; 2].
Definition scenarioB : list nat := [0; 1; 2; 4; 3; 5; 7; 6; 8].

(** ** Specification-side vocabulary *)

(** The three cells of a line hold the same mark: they are non-empty and
    identical. *)
Definition complete (b : Board) (l : Line) : Prop :=
  ∃ m, b !! l.1.1 = Some (CMark m)
       ∧ b !! l.1.2 = Some (CMark m)
       ∧ b !! l.2 = Some (CMark m).

(** No cell of the board is empty. *)
Definition full (b : Board) : Prop := Forall (λ c, c ≠ CNull) b.

(** A board of the data model: nine cells, each empty or marked. *)
Definition wellFormed (b : Board) : Prop :=
  length b = 9 ∧ Forall (λ c, c ≠ CUndef) b.

(** The number of marked cells. *)
Definition marked (b : Board) : nat := length (filter (λ c, truthy c = true) b).

(** The mark of the [k]-th placement of a game, counted from 0. *)
Definition turnOf (k : nat) : Mark := if Nat.even k then X else O.

(** The eight triples as the specification lists them. *)
Definition rows : list Line := [(0, 1, 2); (3, 4, 5); (6, 7, 8)].
Definition columns : list Line := [(0, 3, 6); (1, 4, 7); (2, 5, 8)].
Definition diagonals : list Line := [(0, 4, 8); (2, 4, 6)].

(** The status text as the specification words it. *)
Definition statusTextSpec (s : State) : string :=
  match winner s with
  | Some w => "Winner: " +:+ markText w
  | None =>
      if isDraw (board s) then "Draw"
      else "Turn: " +:+ markText (current s)
  end.

(** The commands the nine cell buttons and the two reset buttons can
    issue. *)
Definition inRange (c : Command) : Prop :=
  match c with
  | CellActivated idx => idx < 9
  | ResetClicked _ => True
  end.

(** The move count agrees with a board of the data model. *)
Definition countsMarks (s : State) : Prop :=
  wellFormed (board s) ∧ moveCount s = marked (board s).

(** A recorded winner is the mark whose turn it still is. *)
Definition winnerHasTurn (s : State) : Prop :=
  ∀ w, winner s = Some w → current s = w.

(** The current turn at each call of the sequence that placed a mark
    (changed the board), in order. *)
Fixpoint turnsPlaced (idxs : list nat) (s : State) : list Mark :=
  match idxs with
  | [] => []
  | idx :: rest =>
      if decide (board (handleMove idx s) = board s)
      then turnsPlaced rest (handleMove idx s)
      else current s :: turnsPlaced rest (handleMove idx s)
  end.

(** While no winner is recorded, the board has no winning line. *)
Definition noHiddenWin (s : State) : Prop :=
  winner s = None → getWinningLine (board s) = None.

(** Won or full: the game is over. *)
Definition over (s : State) : Prop := is_Some (winner s) ∨ full (board s).

(** ** The page *)

(** [classList.toggle(c, force)]: add the class when [force] holds, remove
    it otherwise. *)
Definition classToggle (c : string) (force : bool) (cl : list string) : list string :=
  if force then classAdd c cl else classRemove c cl.

(** What [render] writes on one of the cell buttons. *)
Record CellButton : Type := mkCellButton {
  textContent : string;
  datasetValue : string;
  disabled : bool;
  cellClasses : list string;
  ariaLabel : string;
}.

(** The elements [render] and [updateStatus] write to: the move counter,
    the array [cellButtons], the two reset buttons and the status line. *)
Record Page : Type := mkPage {
  moveCountPill : string;
  cellButtons : list CellButton;
  resetBtnDisabled : bool;
  clearBtnDisabled : bool;
  statusEl : StatusEl;
}.

(** [v ?? ''] for a cell value [v]. *)
Definition cellText (v : Cell) : string :=
  match v with
  | CMark m => markText m
  | CNull | CUndef => EmptyString
  end.

(** [new Set(state.winningLine ?? [])], as the list of its members. *)
Definition winSetOf (line : option Line) : list nat :=
  match line with
  | Some (a, b, c) => [a; b; c]
  | None => []
  end.

(** The body of the loop of [render], for the button of cell [i]. *)
Definition renderCell (s : State) (i : nat) (btn : CellButton) : CellButton :=
  let v := get (board s) i in
  {| textContent := cellText v;
     datasetValue := cellText v;
     disabled := truthy v || bool_decide (is_Some (winner s)) || isDraw (board s);
     cellClasses :=
       classToggle "cell--win" (bool_decide (i ∈ winSetOf (winningLine s)))
         (classToggle "cell--o" (strict_eq v (CMark O))
            (classToggle "cell--x" (strict_eq v (CMark X)) (cellClasses btn)));
     ariaLabel :=
       "Cell " +:+ pretty (i + 1)
       +:+ (if truthy v then ", " +:+ cellText v else ", empty") |}.

(** The loop [for (let i = ...; i < ...; i += 1)] of [render], with [n]
    rounds left.  Reading a button that [cellButtons] does not hold gives
    [undefined], and writing to it throws: the result is [None]. *)
Fixpoint renderCells (s : State) (i n : nat) (btns : list CellButton)
  : option (list CellButton) :=
  match n with
  | 0 => Some btns
  | S n' =>
      match btns !! i with
      | Some btn => renderCells s (S i) n' (<[i := renderCell s i btn]> btns)
      | None => None
      end
  end.

(** [render()]: [None] when it throws. *)
Definition render (s : State) (p : Page) : option Page :=
  btns ← renderCells s 0 9 (cellButtons p);
  Some {| moveCountPill := "Moves: " +:+ pretty (moveCount s);
          cellButtons := btns;
          resetBtnDisabled := false;
          clearBtnDisabled := false;
          statusEl := updateStatus s (statusEl p) |}.

(** The state object together with the page. *)
Record App : Type := mkApp {
  appState : State;
  appPage : Page;
}.

(** [handleMove(idx)] with its closing [render()]: a call turned away by
    one of the three guards returns before rendering. *)
Definition handleMoveApp (idx : nat) (a : App) : option App :=
  if bool_decide (is_Some (winner (appState a))) then Some a
  else if truthy (get (board (appState a)) idx) then Some a
  else if isDraw (board (appState a)) then Some a
  else
    p ← render (handleMove idx (appState a)) (appPage a);
    Some {| appState := handleMove idx (appState a); appPage := p |}.

(** [resetGame(hard)] with its [render()].  The closing [focus()] call
    moves the browser focus only, which the page record does not hold. *)
Definition resetGameApp (hard : bool) (a : App) : option App :=
  p ← render (resetGame hard (appState a)) (appPage a);
  Some {| appState := resetGame hard (appState a); appPage := p |}.

Definition stepApp (c : Command) (a : App) : option App :=
  match c with
  | CellActivated idx => handleMoveApp idx a
  | ResetClicked hard => resetGameApp hard a
  end.

Fixpoint runApp (cmds : list Command) (a : App) : option App :=
  match cmds with
  | [] => Some a
  | c :: rest => a' ← stepApp c a; runApp rest a'
  end.

(** The script's last statement: the initial [render()]. *)
Definition startApp (p : Page) : option App :=
  p' ← render initialState p;
  Some {| appState := initialState; appPage := p' |}.

(** A page with nine cell buttons of class [cell], before any render. *)
Definition samplePage : Page :=
  {| moveCountPill := "Moves: 0";
     cellButtons := replicate 9 (mkCellButton EmptyString EmptyString false ["cell"] "Cell");
     resetBtnDisabled := false;
     clearBtnDisabled := false;
     statusEl := statusEl0 |}.

(** ** Vocabulary for the invariants of the game *)

(** The number of cells holding the mark [m]. *)
Definition countMark (m : Mark) (b : Board) : nat :=
  length (filter (λ c, c = CMark m) b).

(** The recorded winner and winning line are what [getWinner] and
    [getWinningLine] compute from the board. *)
Definition cacheFresh (s : State) : Prop :=
  winningLine s = getWinningLine (board s)
  ∧ getWinner (board s) = from_option CMark CNull (winner s).

(** The turn follows the parity of the move count. *)
Definition turnInStep (s : State) : Prop :=
  (winner s = None → isDraw (board s) = false → current s = turnOf (moveCount s))
  ∧ (∀ w, winner s = Some w → turnOf (moveCount s) = other w).

(** X has placed as many marks as O, or one more, by the parity of the
    move count. *)
Definition marksBalanced (s : State) : Prop :=
  countMark X (board s) + countMark O (board s) = moveCount s
  ∧ countMark X (board s)
    = countMark O (board s) + (if Nat.even (moveCount s) then 0 else 1).

(** The invariant behind the counting: nine cells, the turn in step with
    the move count, and the two players' marks balanced. *)
Definition fairGame (s : State) : Prop :=
  wellFormed (board s) ∧ turnInStep s ∧ marksBalanced s.

(** The page shows the state: rendering again changes nothing. *)
Definition inSync (a : App) : Prop :=
  render (appState a) (appPage a) = Some (appPage a).

(** A property of every cell of a concrete board: evaluate the board and
    check the cells one by one. *)
Ltac every_cell := vm_compute; repeat constructor; discriminate.

(** ** Scenarios of the specification *)

Example scenarioA_outcome :
  playMoves scenarioA initialState =
  {| board := [CMark X; CMark X; CMark X; CMark O; CMark O; CNull; CNull; CNull; CNull];
     current := X; winner := Some X; winningLine := Some (0, 1, 2); moveCount := 5 |}
  /\ statusText (playMoves scenarioA initialState) = "Winner: X".
Proof. split; reflexivity. Qed.

Example scenarioB_outcome :
  winner (playMoves scenarioB initialState) = None
  /\ isDraw (board (playMoves scenarioB initialState)) = true
  /\ moveCount (playMoves scenarioB initialState) = 9.
Proof. repeat split; reflexivity. Qed.

Example scenarioC_outcome :
  playMoves [0; 0] initialState = playMoves [0] initialState.
Proof. reflexivity. Qed.

(** ** Reading and writing cells *)

Lemma get_lookup (b : Board) i c : b !! i = Some c → get b i = c.
Proof. unfold get. by intros ->. Qed.

Lemma get_mark (b : Board) i m : get b i = CMark m ↔ b !! i = Some (CMark m).
Proof.
  unfold get. destruct (b !! i) as [c|]; simpl; split; congruence.
Qed.

Lemma get_null (b : Board) i : get b i = CNull ↔ b !! i = Some CNull.
Proof.
  unfold get. destruct (b !! i) as [c|]; simpl; split; congruence.
Qed.

Lemma get_ge (b : Board) i : length b ≤ i → get b i = CUndef.
Proof. intros H. unfold get. by rewrite lookup_ge_None_2. Qed.

Lemma truthy_mark c : truthy c = true ↔ ∃ m, c = CMark m.
Proof. destruct c; simpl; split; try discriminate; eauto; by intros [? ?]. Qed.

Lemma set_lt (b : Board) i v : i < length b → set b i v = <[i:=v]> b.
Proof. intros H. unfold set. by rewrite decide_True. Qed.

Lemma set_ge (b : Board) i v :
  length b ≤ i → set b i v = b ++ replicate (i - length b) CUndef ++ [v].
Proof. intros H. unfold set. rewrite decide_False; [done | lia]. Qed.

Lemma length_set_lt (b : Board) i v : i < length b → length (set b i v) = length b.
Proof. intros H. rewrite set_lt by done. apply length_insert. Qed.

Lemma lookup_set_eq (b : Board) i v : set b i v !! i = Some v.
Proof.
  destruct (decide (i < length b)) as [Hlt | Hge].
  - rewrite set_lt by done. by apply list_lookup_insert_eq.
  - rewrite set_ge by lia.
    rewrite lookup_app_r by lia.
    rewrite lookup_app_r by (rewrite length_replicate; lia).
    rewrite length_replicate.
    by replace (i - length b - (i - length b)) with 0 by (clear; lia).
Qed.

Lemma get_set_eq (b : Board) i v : get (set b i v) i = v.
Proof. apply get_lookup, lookup_set_eq. Qed.

Lemma lookup_set_ne (b : Board) i j v :
  i ≠ j → j < length b → set b i v !! j = b !! j.
Proof.
  intros Hne Hj. destruct (decide (i < length b)) as [Hlt | Hge].
  - rewrite set_lt by done. by apply list_lookup_insert_ne.
  - rewrite set_ge by lia. by apply lookup_app_l.
Qed.

Lemma get_set_ne (b : Board) i j v : i ≠ j → get (set b i v) j = get b j.
Proof.
  intros Hne. destruct (decide (j < length b)) as [Hj | Hj].
  - unfold get. by rewrite lookup_set_ne.
  - rewrite (get_ge b j) by lia.
    destruct (decide (i < length b)) as [Hi | Hi].
    { apply get_ge. rewrite length_set_lt by done. lia. }
    rewrite set_ge by lia.
    unfold get. rewrite lookup_app_r by lia.
    destruct (decide (j < i)) as [Hji | Hji].
    + rewrite lookup_app_l by (rewrite length_replicate; lia).
      rewrite lookup_replicate_2; [done | lia].
    + rewrite lookup_ge_None_2; [done |].
      rewrite length_app, length_replicate. simpl. lia.
Qed.

(** A write that turns a falsy cell into a mark changes the array. *)
Lemma set_mark_changes (b : Board) i m : truthy (get b i) = false → set b i (CMark m) ≠ b.
Proof.
  intros Hf Heq.
  pose proof (get_set_eq b i (CMark m)) as Hg.
  rewrite Heq in Hg. rewrite Hg in Hf. discriminate.
Qed.

(** ** The scan over the lines *)

Lemma lineWins_complete (b : Board) (l : Line) : lineWins b l = true ↔ complete b l.
Proof.
  destruct l as [[x y] z]. unfold lineWins, complete, strict_eq. simpl.
  rewrite !andb_true_iff, !bool_decide_eq_true, truthy_mark.
  split.
  - intros [[[m Hm] Hy] Hz]. exists m.
    rewrite <- !get_mark. rewrite <- Hy, <- Hz. done.
  - intros (m & Hx & Hy & Hz). apply get_mark in Hx, Hy, Hz.
    rewrite Hx, Hy, Hz. eauto.
Qed.

Lemma lineWins_not_complete (b : Board) (l : Line) : lineWins b l = false ↔ ¬ complete b l.
Proof. rewrite <- lineWins_complete. by destruct (lineWins b l). Qed.

Lemma scanLines_Some (lines : list Line) (b : Board) (l : Line) :
  scanLines lines b = Some l ↔
  ∃ k, lines !! k = Some l ∧ lineWins b l = true
       ∧ ∀ j l', j < k → lines !! j = Some l' → lineWins b l' = false.
Proof.
  induction lines as [| l0 rest IH]; simpl.
  - split; [discriminate | by intros (k & Hk & _)].
  - destruct (lineWins b l0) eqn:Hw.
    + split.
      * intros [= <-]. exists 0. repeat split; [done | intros; lia].
      * intros (k & Hk & Hl & Hfirst). destruct k as [| k].
        -- by injection Hk as ->.
        -- specialize (Hfirst 0 l0 ltac:(lia) eq_refl). congruence.
    + rewrite IH. split.
      * intros (k & Hk & Hl & Hfirst). exists (S k). repeat split; [done.. |].
        intros [| j] l' Hj Hl'; simpl in Hl'.
        -- by injection Hl' as <-.
        -- apply (Hfirst j); [lia | done].
      * intros (k & Hk & Hl & Hfirst). destruct k as [| k].
        -- injection Hk as ->. congruence.
        -- exists k. repeat split; [done.. |].
           intros j l' Hj Hl'. apply (Hfirst (S j)); [lia | done].
Qed.

Lemma scanLines_None (lines : list Line) (b : Board) :
  scanLines lines b = None ↔ ∀ l, l ∈ lines → lineWins b l = false.
Proof.
  induction lines as [| l0 rest IH]; simpl.
  - split; [| done]. intros _ l Hl. by apply elem_of_nil in Hl.
  - destruct (lineWins b l0) eqn:Hw.
    + split; [discriminate |]. intros H.
      specialize (H l0 ltac:(left)). congruence.
    + rewrite IH. split.
      * intros H l Hl. apply elem_of_cons in Hl as [-> | Hl]; auto.
      * intros H l Hl. apply H. by right.
Qed.

(** A winning line starts at a marked cell, so [getWinner] answers a mark
    or [null], never [undefined]. *)
Lemma getWinner_cases (b : Board) :
  (getWinningLine b = None ∧ getWinner b = CNull)
  ∨ (∃ l m, getWinningLine b = Some l ∧ getWinner b = CMark m).
Proof.
  unfold getWinner. destruct (getWinningLine b) as [[[x y] z] |] eqn:Hl.
  - right. apply scanLines_Some in Hl as (k & _ & Hw & _).
    apply lineWins_complete in Hw as (m & Hx & _). simpl in Hx.
    exists (x, y, z), m. split; [done |]. by apply get_mark.
  - by left.
Qed.

Lemma getWinner_null (b : Board) : getWinner b = CNull ↔ getWinningLine b = None.
Proof.
  destruct (getWinner_cases b) as [[H1 H2] | (l & m & H1 & H2)];
    rewrite H1, H2; split; congruence.
Qed.

Lemma forallb_full (b : Board) :
  forallb (fun c => negb (strict_eq c CNull)) b = true ↔ full b.
Proof.
  unfold full, strict_eq. induction b as [| c b IH]; simpl.
  - split; [constructor | done].
  - rewrite andb_true_iff, IH, Forall_cons, negb_true_iff, bool_decide_eq_false.
    done.
Qed.

Lemma isDraw_true (b : Board) : isDraw b = true ↔ full b ∧ getWinner b = CNull.
Proof.
  unfold isDraw. rewrite andb_true_iff, forallb_full, negb_true_iff.
  destruct (getWinner_cases b) as [[_ H] | (l & m & _ & H)]; rewrite H; simpl;
    split; intros [? ?]; split; congruence.
Qed.

(** ** The two outcomes of [handleMove] *)

Lemma handleMove_rejected (idx : nat) (s : State) :
  is_Some (winner s) ∨ truthy (get (board s) idx) = true ∨ isDraw (board s) = true →
  handleMove idx s = s.
Proof.
  unfold handleMove. intros [Hw | [Hc | Hd]].
  - by rewrite bool_decide_eq_true_2.
  - rewrite Hc. by case_bool_decide.
  - rewrite Hd. case_bool_decide; [done |]. by destruct (truthy _).
Qed.

Lemma handleMove_accepted (idx : nat) (s : State) :
  winner s = None → truthy (get (board s) idx) = false → isDraw (board s) = false →
  handleMove idx s =
    let board' := set (board s) idx (CMark (current s)) in
    match getWinningLine board' with
    | Some line => mkState board' (current s) (Some (current s)) (Some line) (S (moveCount s))
    | None =>
        mkState board'
          (if isDraw board' then current s else other (current s))
          None (winningLine s) (S (moveCount s))
    end.
Proof.
  intros Hw Hc Hd. unfold handleMove.
  rewrite bool_decide_eq_false_2 by (rewrite Hw; by intros [? ?]).
  rewrite Hc, Hd. simpl.
  destruct (getWinningLine _); [done |].
  rewrite Hw. by destruct (isDraw (set _ _ _)).
Qed.

(** Either the call is turned away and nothing happens, or all three
    guards pass. *)
Lemma handleMove_dichotomy (idx : nat) (s : State) :
  handleMove idx s = s
  ∨ (winner s = None ∧ truthy (get (board s) idx) = false ∧ isDraw (board s) = false).
Proof.
  destruct (winner s) as [w |] eqn:Hw.
  { left. apply handleMove_rejected. left. rewrite Hw. eauto. }
  destruct (truthy (get (board s) idx)) eqn:Hc.
  { left. apply handleMove_rejected. auto. }
  destruct (isDraw (board s)) eqn:Hd.
  { left. apply handleMove_rejected. auto. }
  by right.
Qed.

Lemma handleMove_accepted_board (idx : nat) (s : State) :
  winner s = None → truthy (get (board s) idx) = false → isDraw (board s) = false →
  board (handleMove idx s) = set (board s) idx (CMark (current s))
  ∧ moveCount (handleMove idx s) = S (moveCount s).
Proof.
  intros Hw Hc Hd. rewrite handleMove_accepted by done. simpl.
  by destruct (getWinningLine _).
Qed.

(** ** Rejected moves *)

(** C1: in a state whose winner is set, or whose board is full with no
    winner (a draw), or whose target cell already holds a mark,
    [handleMove] on that cell returns the state as it was: board, current
    turn, winner, winning line and move count are all unchanged.  The
    function has no failing path, so nothing is raised. *)
Theorem handleMove_rejected_is_noop (s : State) (idx : nat) :
  is_Some (winner s)
  ∨ (full (board s) ∧ getWinner (board s) = CNull)
  ∨ (∃ m, board s !! idx = Some (CMark m)) →
  handleMove idx s = s.
Proof.
  intros [Hw | [Hd | [m Hm]]]; apply handleMove_rejected.
  - by left.
  - right; right. by apply isDraw_true.
  - right; left. apply get_lookup in Hm. by rewrite Hm.
Qed.

Lemma handleMove_rejected_is_noop_witness :
  handleMove 5 (playMoves scenarioA initialState) = playMoves scenarioA initialState
  ∧ handleMove 9 (playMoves scenarioB initialState) = playMoves scenarioB initialState
  ∧ handleMove 0 (playMoves [0] initialState) = playMoves [0] initialState.
Proof.
  split; [| split]; apply handleMove_rejected_is_noop.
  - left. exists X. reflexivity.
  - right; left. split; [| reflexivity].
    every_cell.
  - right; right. exists X. reflexivity.
Defined.

(** ** Accepted moves *)



(** ** The winning line *)

(** C3: [getWinningLine] goes through the eight triples in the order
    rows, columns, diagonals and answers the first one whose three cells
    hold the same mark (are non-empty and identical), or nothing when no
    triple qualifies; on the all-empty board it answers nothing.  Stated
    for every board, those of nine cells among them. *)
Theorem getWinningLine_first_complete (b : Board) :
  WIN_LINES = rows ++ columns ++ diagonals
  ∧ (∀ l, getWinningLine b = Some l ↔
          ∃ k, (rows ++ columns ++ diagonals) !! k = Some l
               ∧ complete b l
               ∧ ∀ j l', j < k → (rows ++ columns ++ diagonals) !! j = Some l' →
                         ¬ complete b l')
  ∧ (getWinningLine b = None ↔
     ∀ l, l ∈ rows ++ columns ++ diagonals → ¬ complete b l)
  ∧ getWinningLine (replicate 9 CNull) = None.
Proof.
  split; [reflexivity |].
  change (rows ++ columns ++ diagonals) with WIN_LINES.
  unfold getWinningLine. split; [| split].
  - intros l. rewrite scanLines_Some.
    split; intros (k & Hk & Hl & Hfirst); exists k; (split; [done |]); split.
    + by apply lineWins_complete.
    + intros j l' Hj Hl'. apply lineWins_not_complete. eauto.
    + by apply lineWins_complete.
    + intros j l' Hj Hl'. apply lineWins_not_complete. eauto.
  - rewrite scanLines_None.
    split; intros H l Hl; apply lineWins_not_complete; auto.
  - reflexivity.
Qed.

(** ** Draws *)

Lemma wellFormed_full (b : Board) :
  wellFormed b → (full b ↔ ∀ i, i < 9 → ∃ m, b !! i = Some (CMark m)).
Proof.
  intros [Hlen Hdef]. unfold full. rewrite Forall_lookup in Hdef.
  rewrite Forall_lookup. split.
  - intros Hfull i Hi.
    destruct (lookup_lt_is_Some_2 b i) as [c Hc]; [lia |].
    specialize (Hfull i c Hc). specialize (Hdef i c Hc).
    destruct c as [| | m]; [done.. |]. eauto.
  - intros Hall i c Hc.
    destruct (Hall i) as [m Hm].
    + apply lookup_lt_Some in Hc. lia.
    + congruence.
Qed.

(** C4: on a nine-cell board, [isDraw] answers true exactly when each of
    the nine cells holds a mark and [getWinner] answers [null]. *)
Theorem isDraw_iff_full_no_winner (b : Board) :
  wellFormed b →
  (isDraw b = true ↔
   (∀ i, i < 9 → ∃ m, b !! i = Some (CMark m)) ∧ getWinner b = CNull).
Proof.
  intros Hwf. rewrite isDraw_true. by rewrite (wellFormed_full b Hwf).
Qed.

Lemma isDraw_iff_full_no_winner_witness :
  wellFormed (board (playMoves scenarioB initialState))
  ∧ (isDraw (board (playMoves scenarioB initialState)) = true ↔
     (∀ i, i < 9 → ∃ m, board (playMoves scenarioB initialState) !! i = Some (CMark m))
     ∧ getWinner (board (playMoves scenarioB initialState)) = CNull).
Proof.
  assert (Hwf : wellFormed (board (playMoves scenarioB initialState))).
  { split; [reflexivity |]. every_cell. }
  split; [exact Hwf |].
  exact (isDraw_iff_full_no_winner _ Hwf).
Defined.

(** ** Reset *)

(** C6: whatever the state before and whichever value the [hard] flag
    has, [resetGame] gives the all-empty board, turn X, no winner, no
    winning line and move count 0; the two flag values give the same
    state. *)
Theorem resetGame_fresh (s : State) (hard : bool) :
  resetGame hard s =
    {| board := [CNull; CNull; CNull; CNull; CNull; CNull; CNull; CNull; CNull];
       current := X;
       winner := None;
       winningLine := None;
       moveCount := 0 |}
  ∧ resetGame true s = resetGame false s.
Proof. by destruct hard. Qed.

Lemma resetGame_initialState (s : State) (hard : bool) : resetGame hard s = initialState.
Proof. by destruct hard. Qed.

(** ** Status text *)

(** C7 as worded fails: at the end of the drawn game of scenario B the
    status element reads [It's a draw.], not [Draw]. *)
Lemma statusText_draw_differs :
  winner (playMoves scenarioB initialState) = None
  ∧ isDraw (board (playMoves scenarioB initialState)) = true
  ∧ statusText (playMoves scenarioB initialState) = "It's a draw."
  ∧ statusText (playMoves scenarioB initialState)
    ≠ statusTextSpec (playMoves scenarioB initialState).
Proof.
  split; [vm_compute; reflexivity |].
  split; [vm_compute; reflexivity |].
  split; [vm_compute; reflexivity |].
  vm_compute. discriminate.
Qed.

(** C7, amended: the rendered status text is [Winner: w] when the winner
    [w] is set; otherwise [It's a draw.] when the board is a draw;
    otherwise [Turn: t] for the current turn [t].  This holds whatever the
    status element held before. *)
Theorem updateStatus_text (s : State) (el : StatusEl) :
  renderedText (content (updateStatus s el)) =
    match winner s with
    | Some w => "Winner: " +:+ markText w
    | None =>
        if isDraw (board s) then "It's a draw."
        else "Turn: " +:+ markText (current s)
    end.
Proof.
  unfold updateStatus. destruct (winner s) as [[|] |].
  - reflexivity.
  - reflexivity.
  - destruct (isDraw (board s)); [reflexivity |]. by destruct (current s).
Qed.

(** ** Indices past the ninth cell *)




(** ** Invariants along command sequences *)

Section Invariants.
Variable allowed : Command → Prop.
Variable P : State → Prop.
Hypothesis preserved : ∀ s c, allowed c → P s → P (step s c).

Lemma run_invariant (cmds : list Command) (s : State) :
  Forall allowed cmds → P s → P (run cmds s).
Proof.
  unfold run. revert s.
  induction cmds as [| c cmds IH]; intros s Hall Hs; simpl; [done |].
  apply Forall_cons in Hall as [Hc Hall]. apply IH; auto.
Qed.
End Invariants.

Lemma playMoves_run (idxs : list nat) (s : State) :
  playMoves idxs s = run (CellActivated <$> idxs) s.
Proof.
  unfold playMoves, run. revert s.
  induction idxs as [| idx idxs IH]; intros s; simpl; [done | apply IH].
Qed.

(** *** Counting the marks *)

Lemma marked_cons (c : Cell) (b : Board) :
  marked (c :: b) = (if truthy c then 1 else 0) + marked b.
Proof.
  unfold marked. destruct (truthy c) eqn:Hc.
  - by rewrite filter_cons_True.
  - rewrite filter_cons_False; [done | congruence].
Qed.

Lemma marked_insert (b : Board) (i : nat) (c : Cell) (m : Mark) :
  b !! i = Some c → truthy c = false →
  marked (<[i := CMark m]> b) = S (marked b).
Proof.
  revert i. induction b as [| c0 b IH]; intros i Hi Hc; [done |].
  destruct i as [| i]; simpl in *.
  - injection Hi as ->. rewrite !marked_cons, Hc. done.
  - rewrite !marked_cons, (IH i) by done. lia.
Qed.

Lemma wellFormed_insert (b : Board) (i : nat) (m : Mark) :
  wellFormed b → wellFormed (<[i := CMark m]> b).
Proof.
  intros [Hlen Hdef]. split.
  - by rewrite length_insert.
  - apply Forall_insert; done.
Qed.

Lemma countsMarks_initial : countsMarks initialState.
Proof.
  split; [split; [reflexivity |] | reflexivity].
  every_cell.
Qed.

Lemma countsMarks_step (s : State) (c : Command) :
  inRange c → countsMarks s → countsMarks (step s c).
Proof.
  destruct c as [idx | hard]; simpl; intros Hc Hs.
  - destruct (handleMove_dichotomy idx s) as [-> | (Hw & Ht & Hd)]; [done |].
    destruct Hs as [Hwf Hcount].
    destruct (handleMove_accepted_board idx s Hw Ht Hd) as [Hb Hm].
    assert (Hlt : idx < length (board s)) by (destruct Hwf as [-> _]; done).
    rewrite set_lt in Hb by done.
    destruct (lookup_lt_is_Some_2 (board s) idx Hlt) as [c Hcell].
    unfold countsMarks. rewrite Hb, Hm. split.
    + by apply wellFormed_insert.
    + rewrite (marked_insert _ _ c); [congruence | done |].
      apply get_lookup in Hcell. by rewrite Hcell in Ht.
  - rewrite resetGame_initialState. apply countsMarks_initial.
Qed.

(** C5: in every state reached from the initial state by [handleMove]
    calls with indices 0..8 and [resetGame] calls, the move count is the
    number of non-empty cells of the board (which still has its nine
    cells, each empty or marked). *)
Theorem moveCount_counts_marks (cmds : list Command) :
  Forall inRange cmds →
  moveCount (run cmds initialState) = marked (board (run cmds initialState))
  ∧ wellFormed (board (run cmds initialState)).
Proof.
  intros Hall.
  destruct (run_invariant inRange countsMarks countsMarks_step cmds initialState
              Hall countsMarks_initial) as [Hwf Hcount].
  done.
Qed.

Lemma moveCount_counts_marks_witness :
  moveCount (run [CellActivated 0; CellActivated 4; CellActivated 0;
                  ResetClicked true; CellActivated 8] initialState) = 1
  ∧ marked (board (run [CellActivated 0; CellActivated 4; CellActivated 0;
                        ResetClicked true; CellActivated 8] initialState)) = 1.
Proof.
  pose proof (moveCount_counts_marks
                [CellActivated 0; CellActivated 4; CellActivated 0;
                 ResetClicked true; CellActivated 8]) as H.
  destruct H as [Hcount _].
  { repeat constructor. }
  split; [reflexivity |]. rewrite <- Hcount. reflexivity.
Defined.

(** *** The winner keeps the turn *)

Lemma winnerHasTurn_step (s : State) (c : Command) :
  True → winnerHasTurn s → winnerHasTurn (step s c).
Proof.
  destruct c as [idx | hard]; simpl; intros _ Hs.
  - destruct (handleMove_dichotomy idx s) as [-> | (Hw & Ht & Hd)]; [done |].
    rewrite handleMove_accepted by done. simpl.
    destruct (getWinningLine _); intros w; simpl; congruence.
  - rewrite resetGame_initialState. intros w. discriminate.
Qed.

(** C9: in every state reached from the initial state by [handleMove] and
    [resetGame] calls, a set winner is also the current turn. *)
Theorem winner_is_current (cmds : list Command) (w : Mark) :
  winner (run cmds initialState) = Some w → current (run cmds initialState) = w.
Proof.
  apply (run_invariant (λ _, True) winnerHasTurn winnerHasTurn_step).
  - apply Forall_true. done.
  - intros w'. discriminate.
Qed.

Lemma winner_is_current_witness :
  winner (run (CellActivated <$> [1; 0; 3; 4; 5; 8]) initialState) = Some O
  ∧ current (run (CellActivated <$> [1; 0; 3; 4; 5; 8]) initialState) = O.
Proof.
  split; [reflexivity |].
  apply (winner_is_current (CellActivated <$> [1; 0; 3; 4; 5; 8]) O).
  reflexivity.
Defined.

(** *** Alternation of the turn *)

Example turnsPlaced_scenarioC :
  turnsPlaced [0; 0; 4; 9; 4; 2] initialState = [X; O; X; O].
Proof. reflexivity. Qed.

(** The mark an accepted call writes is the current turn. *)
Lemma handleMove_writes_current (idx : nat) (s : State) :
  board (handleMove idx s) ≠ board s →
  board (handleMove idx s) !! idx = Some (CMark (current s)).
Proof.
  intros Hne.
  destruct (handleMove_dichotomy idx s) as [Heq | (Hw & Ht & Hd)].
  - by rewrite Heq in Hne.
  - destruct (handleMove_accepted_board idx s Hw Ht Hd) as [-> _].
    apply lookup_set_eq.
Qed.

Lemma turnOf_S (n : nat) : turnOf (S n) = other (turnOf n).
Proof.
  unfold turnOf. rewrite Nat.even_succ, <- Nat.negb_even.
  by destruct (Nat.even n).
Qed.

Lemma turnsPlaced_from (idxs : list nat) (s : State) (n : nat) :
  (winner s = None → isDraw (board s) = false → current s = turnOf n) →
  turnsPlaced idxs s = turnOf <$> seq n (length (turnsPlaced idxs s)).
Proof.
  revert s n. induction idxs as [| idx rest IH]; intros s n Hturn; simpl; [done |].
  destruct (handleMove_dichotomy idx s) as [Heq | (Hw & Ht & Hd)].
  - rewrite Heq. rewrite decide_True by done. by apply IH.
  - destruct (handleMove_accepted_board idx s Hw Ht Hd) as [Hb _].
    rewrite decide_False by (rewrite Hb; by apply set_mark_changes).
    simpl. rewrite <- (Hturn Hw Hd). f_equal.
    apply IH. rewrite handleMove_accepted by done. simpl.
    destruct (getWinningLine _); simpl; [discriminate |].
    intros _ Hd'. rewrite Hd', turnOf_S. f_equal. auto.
Qed.

Lemma noHiddenWin_handleMove (idx : nat) (s : State) :
  noHiddenWin s → noHiddenWin (handleMove idx s).
Proof.
  intros Hs.
  destruct (handleMove_dichotomy idx s) as [-> | (Hw & Ht & Hd)]; [done |].
  rewrite handleMove_accepted by done. simpl.
  destruct (getWinningLine _) eqn:Hl; unfold noHiddenWin; simpl; [discriminate |].
  done.
Qed.

Lemma noHiddenWin_playMoves (idxs : list nat) (s : State) :
  noHiddenWin s → noHiddenWin (playMoves idxs s).
Proof.
  unfold playMoves. revert s.
  induction idxs as [| idx rest IH]; intros s Hs; simpl; [done |].
  by apply IH, noHiddenWin_handleMove.
Qed.

Lemma over_playMoves (idxs : list nat) (s : State) :
  noHiddenWin s → over s → playMoves idxs s = s.
Proof.
  intros Hs Hover. unfold playMoves.
  induction idxs as [| idx rest IH]; simpl; [done |].
  rewrite handleMove_rejected; [done |].
  destruct Hover as [Hw | Hfull]; [by left |].
  destruct (winner s) as [w |] eqn:Hw; [left; eauto |].
  right; right. apply isDraw_true. split; [done |].
  by apply getWinner_null, Hs.
Qed.

(** C8: along every sequence of [handleMove] calls from the fresh state,
    the turn under which marks are placed alternates X, O, X, ... from
    one placed mark to the next; and once the winner is set or the board
    is full, no further [handleMove] call changes the current turn. *)
Theorem turn_alternates_until_over (idxs : list nat) :
  turnsPlaced idxs initialState
  = turnOf <$> seq 0 (length (turnsPlaced idxs initialState))
  ∧ ∀ more,
      is_Some (winner (playMoves idxs initialState))
      ∨ full (board (playMoves idxs initialState)) →
      current (playMoves more (playMoves idxs initialState))
      = current (playMoves idxs initialState).
Proof.
  split.
  - by apply turnsPlaced_from.
  - intros more Hover. rewrite over_playMoves; [done | | done].
    apply noHiddenWin_playMoves. by intros _.
Qed.

Lemma turn_alternates_until_over_witness :
  turnsPlaced scenarioB initialState = [X; O; X; O; X; O; X; O; X]
  ∧ current (playMoves [4; 9; 0] (playMoves scenarioB initialState))
    = current (playMoves scenarioB initialState)
  ∧ current (playMoves [5; 9; 7] (playMoves scenarioA initialState))
    = current (playMoves scenarioA initialState).
Proof.
  split; [| split].
  - exact (proj1 (turn_alternates_until_over scenarioB)).
  - apply (proj2 (turn_alternates_until_over scenarioB) [4; 9; 0]).
    right. every_cell.
  - apply (proj2 (turn_alternates_until_over scenarioA) [5; 9; 7]).
    left. exists X. reflexivity.
Defined.

(** ** The page after a game *)

Example render_scenarioA :
  (λ p, (moveCountPill p,
         (λ b, (textContent b, disabled b, cellClasses b, ariaLabel b)) <$> take 4 (cellButtons p),
         renderedText (content (statusEl p))))
    <$> render (playMoves scenarioA initialState) samplePage
  = Some ("Moves: 5",
          [("X", true, ["cell"; "cell--x"; "cell--win"], "Cell 1, X");
           ("X", true, ["cell"; "cell--x"; "cell--win"], "Cell 2, X");
           ("X", true, ["cell"; "cell--x"; "cell--win"], "Cell 3, X");
           ("O", true, ["cell"; "cell--o"], "Cell 4, O")],
          "Winner: X").
Proof. vm_compute. reflexivity. Qed.

(** ** More on the winner of a board *)

Lemma lineWins_marks (b : Board) (x y z : nat) :
  lineWins b (x, y, z) = true →
  ∃ m, get b x = CMark m ∧ get b y = CMark m ∧ get b z = CMark m.
Proof.
  intros H. apply lineWins_complete in H as (m & Hx & Hy & Hz). simpl in *.
  exists m. by rewrite !get_mark.
Qed.

Lemma getWinningLine_elem (b : Board) (l : Line) :
  getWinningLine b = Some l → l ∈ WIN_LINES ∧ lineWins b l = true.
Proof.
  intros H. apply scanLines_Some in H as (k & Hk & Hw & _).
  split; [| done]. by eapply list_elem_of_lookup_2.
Qed.

(** X1: [getWinner] never answers [undefined]; it answers [null] exactly
    when there is no winning line, and a mark [m] exactly when the line
    [getWinningLine] finds has [m] in all three of its cells. *)
Theorem getWinner_reads_the_line (b : Board) :
  getWinner b ≠ CUndef
  ∧ (getWinner b = CNull ↔ getWinningLine b = None)
  ∧ ∀ m, getWinner b = CMark m ↔
         ∃ l, getWinningLine b = Some l
              ∧ b !! l.1.1 = Some (CMark m)
              ∧ b !! l.1.2 = Some (CMark m)
              ∧ b !! l.2 = Some (CMark m).
Proof.
  split; [| split].
  - destruct (getWinner_cases b) as [[_ H] | (l & m & _ & H)]; rewrite H; done.
  - apply getWinner_null.
  - intros m. unfold getWinner.
    destruct (getWinningLine b) as [[[x y] z] |] eqn:Hl.
    + apply getWinningLine_elem in Hl as [_ Hw].
      apply lineWins_marks in Hw as (m' & Hx & Hy & Hz). rewrite Hx. split.
      * intros [= <-]. exists (x, y, z). simpl. by rewrite <- !get_mark.
      * intros (l & [= <-] & Hx' & _). simpl in Hx'.
        apply get_mark in Hx'. congruence.
    + split; [discriminate | by intros (l & ? & _)].
Qed.

(** ** What a move leaves alone *)

Lemma handleMove_changes_iff (idx : nat) (s : State) :
  handleMove idx s ≠ s ↔
  winner s = None ∧ truthy (get (board s) idx) = false ∧ isDraw (board s) = false.
Proof.
  split.
  - intros Hne. by destruct (handleMove_dichotomy idx s) as [Heq | H].
  - intros (Hw & Ht & Hd) Heq.
    destruct (handleMove_accepted_board idx s Hw Ht Hd) as [_ Hm].
    rewrite Heq in Hm. lia.
Qed.

(** X2: calling [handleMove] a second time with the same index changes
    nothing more: the first call either was turned away or filled the
    cell, and a filled cell is turned away. *)
Theorem handleMove_idempotent (idx : nat) (s : State) :
  handleMove idx (handleMove idx s) = handleMove idx s.
Proof.
  destruct (handleMove_dichotomy idx s) as [Heq | (Hw & Ht & Hd)].
  - by rewrite !Heq.
  - apply handleMove_rejected. right; left.
    destruct (handleMove_accepted_board idx s Hw Ht Hd) as [-> _].
    by rewrite get_set_eq.
Qed.

(** X3: [handleMove(idx)] touches no position of the board other than
    [idx]: every other index reads as before. *)
Theorem handleMove_frame (idx j : nat) (s : State) :
  j ≠ idx → get (board (handleMove idx s)) j = get (board s) j.
Proof.
  intros Hne.
  destruct (handleMove_dichotomy idx s) as [-> | (Hw & Ht & Hd)]; [done |].
  destruct (handleMove_accepted_board idx s Hw Ht Hd) as [-> _].
  by apply get_set_ne.
Qed.

Lemma handleMove_frame_witness :
  get (board (handleMove 4 (playMoves [0; 3] initialState))) 0
  = get (board (playMoves [0; 3] initialState)) 0.
Proof. apply handleMove_frame. discriminate. Defined.

Lemma handleMove_keeps_mark (idx i : nat) (m : Mark) (s : State) :
  board s !! i = Some (CMark m) → board (handleMove idx s) !! i = Some (CMark m).
Proof.
  intros Hi.
  destruct (handleMove_dichotomy idx s) as [-> | (Hw & Ht & Hd)]; [done |].
  destruct (handleMove_accepted_board idx s Hw Ht Hd) as [-> _].
  rewrite lookup_set_ne; [done | | by eapply lookup_lt_Some].
  intros ->. apply get_lookup in Hi. by rewrite Hi in Ht.
Qed.

(** X4: a mark once on the board stays where it is, with the same
    symbol, through any further sequence of [handleMove] calls. *)
Theorem marks_are_permanent (idxs : list nat) (s : State) (i : nat) (m : Mark) :
  board s !! i = Some (CMark m) → board (playMoves idxs s) !! i = Some (CMark m).
Proof.
  unfold playMoves. revert s.
  induction idxs as [| idx rest IH]; intros s Hi; simpl; [done |].
  by apply IH, handleMove_keeps_mark.
Qed.

Lemma marks_are_permanent_witness :
  board (playMoves [4; 0; 9; 8] (playMoves [0] initialState)) !! 0 = Some (CMark X).
Proof. apply marks_are_permanent. reflexivity. Defined.

(** ** The recorded winner *)

Lemma lineWins_set_other (b : Board) (idx x y z : nat) (v : Cell) :
  idx ≠ x → idx ≠ y → idx ≠ z →
  lineWins (set b idx v) (x, y, z) = lineWins b (x, y, z).
Proof. intros Hx Hy Hz. unfold lineWins. by rewrite !get_set_ne. Qed.

(** A line completed by a move on a board without one holds the mark just
    placed. *)
Lemma fresh_line_mark (b : Board) (idx x y z : nat) (m : Mark) :
  getWinningLine b = None →
  getWinningLine (set b idx (CMark m)) = Some (x, y, z) →
  get (set b idx (CMark m)) x = CMark m.
Proof.
  intros Hnone Hsome.
  apply getWinningLine_elem in Hsome as [Hin Hw].
  pose proof (lineWins_marks _ _ _ _ Hw) as (m' & Hx & Hy & Hz).
  rewrite Hx. f_equal.
  destruct (decide (idx = x)) as [<- | Hnx].
  { rewrite get_set_eq in Hx. congruence. }
  destruct (decide (idx = y)) as [<- | Hny].
  { rewrite get_set_eq in Hy. congruence. }
  destruct (decide (idx = z)) as [<- | Hnz].
  { rewrite get_set_eq in Hz. congruence. }
  rewrite lineWins_set_other in Hw by done.
  pose proof (proj1 (scanLines_None WIN_LINES b) Hnone _ Hin). congruence.
Qed.

Lemma cacheFresh_initial : cacheFresh initialState.
Proof. split; reflexivity. Qed.

Lemma cacheFresh_step (s : State) (c : Command) :
  True → cacheFresh s → cacheFresh (step s c).
Proof.
  destruct c as [idx | hard]; simpl; intros _ Hs.
  - destruct (handleMove_dichotomy idx s) as [-> | (Hw & Ht & Hd)]; [done |].
    destruct Hs as [Hline Hwin]. rewrite Hw in Hwin. simpl in Hwin.
    apply getWinner_null in Hwin.
    rewrite handleMove_accepted by done. simpl.
    destruct (getWinningLine (set _ _ _)) as [[[x y] z] |] eqn:Hl.
    + split; simpl; [done |].
      unfold getWinner. rewrite Hl. by eapply fresh_line_mark.
    + split; simpl; [congruence |]. by apply getWinner_null.
  - rewrite resetGame_initialState. apply cacheFresh_initial.
Qed.

Lemma cacheFresh_run (cmds : list Command) : cacheFresh (run cmds initialState).
Proof.
  apply (run_invariant (λ _, True) cacheFresh cacheFresh_step).
  - by apply Forall_true.
  - apply cacheFresh_initial.
Qed.

(** X5: after any sequence of [handleMove] (any index) and [resetGame]
    calls from the initial state, the two recorded fields are exactly what
    the board helpers compute: [state.winningLine] is
    [getWinningLine(state.board)] and [state.winner] is
    [getWinner(state.board)]. *)
Theorem recorded_winner_matches_board (cmds : list Command) :
  winningLine (run cmds initialState) = getWinningLine (board (run cmds initialState))
  ∧ getWinner (board (run cmds initialState))
    = match winner (run cmds initialState) with
      | Some w => CMark w
      | None => CNull
      end.
Proof.
  destruct (cacheFresh_run cmds) as [Hl Hw]. split; [done |].
  rewrite Hw. by destruct (winner _).
Qed.

Lemma cacheFresh_line (s : State) (l : Line) :
  cacheFresh s → winningLine s = Some l →
  l ∈ WIN_LINES
  ∧ ∃ w, winner s = Some w
         ∧ board s !! l.1.1 = Some (CMark w)
         ∧ board s !! l.1.2 = Some (CMark w)
         ∧ board s !! l.2 = Some (CMark w).
Proof.
  intros [Hline Hwin] Hl.
  rewrite Hl in Hline. symmetry in Hline.
  destruct (getWinningLine_elem _ _ Hline) as [Hin Hw].
  split; [done |].
  destruct l as [[x y] z].
  apply lineWins_marks in Hw as (m & Hx & Hy & Hz).
  unfold getWinner in Hwin. rewrite Hline, Hx in Hwin.
  exists m. simpl. rewrite <- !get_mark. split; [| done].
  by destruct (winner s) as [w |]; simplify_eq/=.
Qed.

(** X6: in every state reached from the initial state, a recorded winning
    line is one of the eight lines of [WIN_LINES], a winner is recorded
    with it, and the three cells of the line hold the winner's mark. *)
Theorem winningLine_is_won (cmds : list Command) (l : Line) :
  winningLine (run cmds initialState) = Some l →
  l ∈ WIN_LINES
  ∧ ∃ w, winner (run cmds initialState) = Some w
         ∧ board (run cmds initialState) !! l.1.1 = Some (CMark w)
         ∧ board (run cmds initialState) !! l.1.2 = Some (CMark w)
         ∧ board (run cmds initialState) !! l.2 = Some (CMark w).
Proof. apply cacheFresh_line, cacheFresh_run. Qed.

Lemma winningLine_is_won_witness :
  (0, 1, 2) ∈ WIN_LINES
  ∧ ∃ w, winner (run (CellActivated <$> scenarioA) initialState) = Some w
         ∧ board (run (CellActivated <$> scenarioA) initialState) !! 0 = Some (CMark w)
         ∧ board (run (CellActivated <$> scenarioA) initialState) !! 1 = Some (CMark w)
         ∧ board (run (CellActivated <$> scenarioA) initialState) !! 2 = Some (CMark w).
Proof.
  apply (winningLine_is_won (CellActivated <$> scenarioA) (0, 1, 2)).
  reflexivity.
Defined.

(** X7: [resetGame] forgets the game so far: whatever was played before
    the reset, what follows goes as from the initial state. *)
Theorem reset_forgets (before after : list Command) (hard : bool) :
  run (before ++ ResetClicked hard :: after) initialState = run after initialState.
Proof.
  unfold run. rewrite foldl_app. simpl. by rewrite resetGame_initialState.
Qed.

(** ** Turn and move count *)

Lemma turnInStep_initial : turnInStep initialState.
Proof. split; [reflexivity | intros w; discriminate]. Qed.

Lemma turnInStep_step (s : State) (c : Command) :
  True → turnInStep s → turnInStep (step s c).
Proof.
  destruct c as [idx | hard]; simpl; intros _ Hs.
  - destruct (handleMove_dichotomy idx s) as [-> | (Hw & Ht & Hd)]; [done |].
    destruct Hs as [Hturn _]. specialize (Hturn Hw Hd).
    rewrite handleMove_accepted by done. simpl.
    destruct (getWinningLine (set _ _ _)); split; simpl.
    + discriminate.
    + intros w [= <-]. by rewrite turnOf_S, Hturn.
    + intros _ ->. by rewrite turnOf_S, Hturn.
    + intros w. discriminate.
  - rewrite resetGame_initialState. apply turnInStep_initial.
Qed.

Lemma turnInStep_run (cmds : list Command) : turnInStep (run cmds initialState).
Proof.
  apply (run_invariant (λ _, True) turnInStep turnInStep_step).
  - by apply Forall_true.
  - apply turnInStep_initial.
Qed.

(** X8: after any sequence of [handleMove] and [resetGame] calls from the
    initial state, the turn follows the parity of the move count: while
    the game is in progress it is X's turn on an even count and O's on an
    odd one; and a recorded winner placed the last mark, so X has won on
    an odd count and O on an even one. *)
Theorem turn_follows_moveCount (cmds : list Command) :
  (winner (run cmds initialState) = None →
   isDraw (board (run cmds initialState)) = false →
   current (run cmds initialState)
   = if Nat.even (moveCount (run cmds initialState)) then X else O)
  ∧ (∀ w, winner (run cmds initialState) = Some w →
          w = if Nat.even (moveCount (run cmds initialState)) then O else X).
Proof.
  destruct (turnInStep_run cmds) as [Hturn Hwon]. split; [done |].
  intros w Hw. specialize (Hwon w Hw). unfold turnOf in Hwon.
  destruct (Nat.even _), w; done.
Qed.

Lemma turn_follows_moveCount_witness :
  current (run (CellActivated <$> [4; 0; 4; 8]) initialState) = O
  ∧ X = (if Nat.even (moveCount (run (CellActivated <$> scenarioA) initialState))
         then O else X).
Proof.
  split.
  - exact (proj1 (turn_follows_moveCount (CellActivated <$> [4; 0; 4; 8]))
             eq_refl eq_refl).
  - exact (proj2 (turn_follows_moveCount (CellActivated <$> scenarioA)) X eq_refl).
Defined.

(** *** Counting each player's marks *)

Lemma countMark_cons (m : Mark) (c : Cell) (b : Board) :
  countMark m (c :: b) = (if decide (c = CMark m) then 1 else 0) + countMark m b.
Proof.
  unfold countMark. destruct (decide (c = CMark m)) as [Hc | Hc].
  - by rewrite filter_cons_True.
  - by rewrite filter_cons_False.
Qed.

Lemma countMark_app (m : Mark) (b1 b2 : Board) :
  countMark m (b1 ++ b2) = countMark m b1 + countMark m b2.
Proof. unfold countMark. by rewrite filter_app, length_app. Qed.

Lemma countMark_insert (m m' : Mark) (b : Board) (i : nat) (c : Cell) :
  b !! i = Some c → truthy c = false →
  countMark m (<[i := CMark m']> b)
  = countMark m b + (if decide (m' = m) then 1 else 0).
Proof.
  revert i. induction b as [| c0 b IH]; intros i Hi Hc; [done |].
  destruct i as [| i]; simpl in *.
  - injection Hi as ->. rewrite !countMark_cons.
    rewrite (decide_False (P := c = CMark m)) by (by destruct c).
    destruct (decide (m' = m)) as [-> | Hne].
    + rewrite decide_True by done. lia.
    + rewrite decide_False by congruence. lia.
  - rewrite !countMark_cons, (IH i) by done. lia.
Qed.

Lemma countMark_drop_le (m : Mark) (b : Board) (i j : nat) :
  i ≤ j → countMark m (drop j b) ≤ countMark m (drop i b).
Proof.
  intros Hij. replace j with (i + (j - i)) by lia.
  rewrite <- drop_drop.
  rewrite <- (take_drop (j - i) (drop i b)) at 2.
  rewrite countMark_app. lia.
Qed.

Lemma countMark_drop_S (m : Mark) (b : Board) (i : nat) :
  b !! i = Some (CMark m) → countMark m (drop i b) = S (countMark m (drop (S i) b)).
Proof.
  intros Hi. rewrite (drop_S _ _ _ Hi), countMark_cons.
  by rewrite decide_True.
Qed.

(** Three different cells with the mark [m] make at least three. *)
Lemma countMark_three (m : Mark) (b : Board) (x y z : nat) :
  x < y → y < z →
  b !! x = Some (CMark m) → b !! y = Some (CMark m) → b !! z = Some (CMark m) →
  3 ≤ countMark m b.
Proof.
  intros Hxy Hyz Hx Hy Hz.
  pose proof (countMark_drop_le m b 0 x ltac:(lia)) as H0.
  pose proof (countMark_drop_S m b x Hx) as H1.
  pose proof (countMark_drop_le m b (S x) y ltac:(lia)) as H2.
  pose proof (countMark_drop_S m b y Hy) as H3.
  pose proof (countMark_drop_le m b (S y) z ltac:(lia)) as H4.
  pose proof (countMark_drop_S m b z Hz) as H5.
  rewrite drop_0 in H0. lia.
Qed.

Lemma WIN_LINES_ascending (l : Line) : l ∈ WIN_LINES → l.1.1 < l.1.2 ∧ l.1.2 < l.2.
Proof.
  unfold WIN_LINES. rewrite !elem_of_cons, elem_of_nil.
  intros H. repeat (destruct H as [-> | H]; [simpl; lia |]). done.
Qed.

Lemma fairGame_initial : fairGame initialState.
Proof.
  split; [| split].
  - split; [reflexivity | every_cell].
  - apply turnInStep_initial.
  - split; reflexivity.
Qed.

Lemma fairGame_step (s : State) (c : Command) :
  inRange c → fairGame s → fairGame (step s c).
Proof.
  intros Hc (Hwf & Hturn & Hbal).
  split; [| split].
  - destruct c as [idx | hard]; simpl in *.
    + destruct (handleMove_dichotomy idx s) as [-> | (Hw & Ht & Hd)]; [done |].
      destruct (handleMove_accepted_board idx s Hw Ht Hd) as [-> _].
      rewrite set_lt by (destruct Hwf as [-> _]; done).
      by apply wellFormed_insert.
    + exact (proj1 fairGame_initial).
  - by apply turnInStep_step.
  - destruct c as [idx | hard]; simpl in *.
    + destruct (handleMove_dichotomy idx s) as [-> | (Hw & Ht & Hd)]; [done |].
      destruct (handleMove_accepted_board idx s Hw Ht Hd) as [Hb Hm].
      assert (Hlt : idx < length (board s)) by (destruct Hwf as [-> _]; done).
      rewrite set_lt in Hb by done.
      destruct (lookup_lt_is_Some_2 (board s) idx Hlt) as [c Hcell].
      assert (Hfalsy : truthy c = false)
        by (apply get_lookup in Hcell; by rewrite Hcell in Ht).
      destruct Hturn as [Hturn _]. specialize (Hturn Hw Hd).
      destruct Hbal as [Hsum Hdiff].
      unfold marksBalanced. rewrite Hb, Hm.
      rewrite !(countMark_insert _ _ _ _ c) by done.
      rewrite Hturn. unfold turnOf.
      rewrite Nat.even_succ, <- Nat.negb_even.
      destruct (Nat.even (moveCount s)); simpl in *; split; lia.
    + rewrite resetGame_initialState. exact (proj2 (proj2 fairGame_initial)).
Qed.

Lemma fairGame_run (cmds : list Command) :
  Forall inRange cmds → fairGame (run cmds initialState).
Proof.
  intros Hall.
  apply (run_invariant inRange fairGame fairGame_step); [done |].
  apply fairGame_initial.
Qed.

Lemma marked_le_length (b : Board) : marked b ≤ length b.
Proof. apply length_filter. Qed.

Lemma marked_all (b : Board) :
  marked b = length b ↔ Forall (λ c, truthy c = true) b.
Proof.
  induction b as [| c b IH].
  - split; [constructor | done].
  - rewrite marked_cons, Forall_cons. pose proof (marked_le_length b).
    destruct (truthy c); simpl; split.
    + intros Hm. split; [done |]. apply IH. lia.
    + intros [_ Hb]. apply IH in Hb. lia.
    + lia.
    + by intros [? _].
Qed.

Lemma countsMarks_run (cmds : list Command) :
  Forall inRange cmds → countsMarks (run cmds initialState).
Proof.
  intros Hall.
  apply (run_invariant inRange countsMarks countsMarks_step); [done |].
  apply countsMarks_initial.
Qed.

(** X9: with indices 0..8, the move count never exceeds nine; at nine
    the game is over (a winner is recorded or the board is a draw); and
    a draw occurs at nine moves only. *)
Theorem game_ends_by_nine (cmds : list Command) :
  Forall inRange cmds →
  moveCount (run cmds initialState) ≤ 9
  ∧ (moveCount (run cmds initialState) = 9 →
     is_Some (winner (run cmds initialState))
     ∨ isDraw (board (run cmds initialState)) = true)
  ∧ (isDraw (board (run cmds initialState)) = true →
     moveCount (run cmds initialState) = 9).
Proof.
  intros Hall.
  destruct (countsMarks_run cmds Hall) as [[Hlen Hdef] Hcount].
  destruct (cacheFresh_run cmds) as [_ Hwin].
  pose proof (marked_le_length (board (run cmds initialState))) as Hle.
  split; [lia |]. split.
  - intros Hnine.
    destruct (winner (run cmds initialState)) as [w |]; [left; eauto | right].
    apply isDraw_true. split; [| done].
    assert (Hall' : Forall (λ c, truthy c = true) (board (run cmds initialState)))
      by (apply marked_all; lia).
    unfold full. eapply Forall_impl; [exact Hall' |].
    by intros [| | m].
  - intros Hd. apply isDraw_true in Hd as [Hfull _].
    rewrite Hcount, <- Hlen. apply marked_all.
    unfold full in Hfull. rewrite Forall_lookup in Hfull, Hdef.
    apply Forall_lookup. intros i c Hc.
    specialize (Hfull i c Hc). specialize (Hdef i c Hc).
    by destruct c.
Qed.

Lemma game_ends_by_nine_witness :
  moveCount (run (CellActivated <$> scenarioB ++ [4; 0; 8]) initialState) ≤ 9
  ∧ moveCount (run (CellActivated <$> scenarioB ++ [4; 0; 8]) initialState) = 9.
Proof.
  pose proof (game_ends_by_nine (CellActivated <$> scenarioB ++ [4; 0; 8])) as H.
  destruct H as (Hle & _ & Hdraw).
  { vm_compute. repeat constructor. }
  split; [exact Hle | apply Hdraw; reflexivity].
Defined.

(** X10: with indices 0..8, X has always placed as many marks as O or
    exactly one more: the marks of both add up to the move count, and X
    is one ahead exactly when the count is odd. *)
Theorem marks_balanced (cmds : list Command) :
  Forall inRange cmds →
  countMark X (board (run cmds initialState))
  + countMark O (board (run cmds initialState))
  = moveCount (run cmds initialState)
  ∧ countMark X (board (run cmds initialState))
    = countMark O (board (run cmds initialState))
      + (if Nat.even (moveCount (run cmds initialState)) then 0 else 1).
Proof. intros Hall. by destruct (fairGame_run cmds Hall) as (_ & _ & Hbal). Qed.

Lemma marks_balanced_witness :
  countMark X (board (run (CellActivated <$> scenarioA) initialState)) = 3
  ∧ countMark O (board (run (CellActivated <$> scenarioA) initialState)) = 2.
Proof.
  pose proof (marks_balanced (CellActivated <$> scenarioA)) as H.
  destruct H as [_ Hdiff].
  { vm_compute. repeat constructor. }
  split; [| reflexivity]. rewrite Hdiff. reflexivity.
Defined.

(** X11: with indices 0..8, nobody wins before the fifth move: whenever
    a winner is recorded the move count is at least five (and at least
    six when the winner is O). *)
Theorem no_win_before_fifth_move (cmds : list Command) (w : Mark) :
  Forall inRange cmds →
  winner (run cmds initialState) = Some w →
  match w with X => 5 | O => 6 end ≤ moveCount (run cmds initialState).
Proof.
  intros Hall Hw.
  destruct (fairGame_run cmds Hall) as (_ & _ & Hsum & Hdiff).
  destruct (cacheFresh_run cmds) as [_ Hwin].
  rewrite Hw in Hwin. simpl in Hwin. unfold getWinner in Hwin.
  destruct (getWinningLine _) as [[[x y] z] |] eqn:Hl; [| discriminate].
  apply getWinningLine_elem in Hl as [Hin Hline].
  apply WIN_LINES_ascending in Hin as [Hxy Hyz]. simpl in Hxy, Hyz.
  apply lineWins_marks in Hline as (m & Hx & Hy & Hz).
  assert (m = w) as -> by congruence.
  apply get_mark in Hx, Hy, Hz.
  pose proof (countMark_three w _ x y z Hxy Hyz Hx Hy Hz) as Hthree.
  destruct (Nat.even (moveCount (run cmds initialState))), w; lia.
Qed.

Lemma no_win_before_fifth_move_witness :
  5 ≤ moveCount (run (CellActivated <$> scenarioA) initialState)
  ∧ 6 ≤ moveCount (run (CellActivated <$> [1; 0; 3; 4; 5; 8]) initialState).
Proof.
  split.
  - apply (no_win_before_fifth_move (CellActivated <$> scenarioA) X);
      [vm_compute; repeat constructor | reflexivity].
  - apply (no_win_before_fifth_move (CellActivated <$> [1; 0; 3; 4; 5; 8]) O);
      [vm_compute; repeat constructor | reflexivity].
Defined.

(** ** Class lists *)

Lemma elem_of_classAdd (x c : string) (cl : list string) :
  x ∈ classAdd c cl ↔ x = c ∨ x ∈ cl.
Proof.
  unfold classAdd. case_bool_decide as Hc.
  - split; [auto |]. intros [Hx | Hx]; [by subst | done].
  - rewrite elem_of_app, list_elem_of_singleton. tauto.
Qed.

Lemma elem_of_classRemove (x c : string) (cl : list string) :
  x ∈ classRemove c cl ↔ x ≠ c ∧ x ∈ cl.
Proof. unfold classRemove. apply (list_elem_of_filter (λ c', c' ≠ c)). Qed.

Lemma elem_of_classToggle_eq (c : string) (force : bool) (cl : list string) :
  c ∈ classToggle c force cl ↔ force = true.
Proof.
  destruct force; simpl.
  - rewrite elem_of_classAdd. split; auto.
  - rewrite elem_of_classRemove. split; [by intros [? _] | done].
Qed.

Lemma elem_of_classToggle_ne (x c : string) (force : bool) (cl : list string) :
  x ≠ c → (x ∈ classToggle c force cl ↔ x ∈ cl).
Proof.
  intros Hne. destruct force; simpl.
  - rewrite elem_of_classAdd. split; [| auto]. intros [Hx | Hx]; done.
  - rewrite elem_of_classRemove. split; [| auto]. intros [_ Hx]; done.
Qed.

Lemma classRemove_absent (c : string) (cl : list string) :
  c ∉ cl → classRemove c cl = cl.
Proof.
  unfold classRemove. induction cl as [| x cl IH]; intros Hc; [done |].
  apply not_elem_of_cons in Hc as [Hx Hc].
  rewrite filter_cons_True by congruence. by rewrite IH.
Qed.

(** A toggle that asks for what already holds leaves the list alone. *)
Lemma classToggle_absorb (c : string) (force : bool) (cl : list string) :
  (c ∈ cl ↔ force = true) → classToggle c force cl = cl.
Proof.
  intros H. destruct force; simpl.
  - unfold classAdd. rewrite bool_decide_eq_true_2; [done |]. by apply H.
  - apply classRemove_absent. intros Hc. by apply H in Hc.
Qed.

(** X12: after [updateStatus], whatever classes the status element had
    before, it has [status--done] exactly when the game is over (a winner
    is recorded or the board is a draw) and [status--draw] exactly when
    it is a draw with no winner recorded; every other class is kept as it
    was, neither added nor removed. *)
Theorem updateStatus_classes (s : State) (el : StatusEl) :
  ("status--done" ∈ classList (updateStatus s el) ↔
   is_Some (winner s) ∨ isDraw (board s) = true)
  ∧ ("status--draw" ∈ classList (updateStatus s el) ↔
     winner s = None ∧ isDraw (board s) = true)
  ∧ ∀ c, c ≠ "status--done" → c ≠ "status--draw" →
         (c ∈ classList (updateStatus s el) ↔ c ∈ classList el).
Proof.
  unfold updateStatus.
  destruct (winner s) as [w |]; [| destruct (isDraw (board s))]; simpl;
    rewrite ?elem_of_classAdd, ?elem_of_classRemove, ?elem_of_classAdd,
      ?elem_of_classRemove.
  - split; [| split].
    + split; [eauto |]. intros _. split; [done | by left].
    + split; [by intros [? _] | by intros [? _]].
    + intros c Hd Hr. rewrite elem_of_classRemove, elem_of_classAdd. tauto.
  - split; [| split].
    + split; [auto |]. intros _. right. by left.
    + split; [done |]. intros _. by left.
    + intros c Hd Hr. rewrite !elem_of_classAdd. tauto.
  - split; [| split].
    + split; [by intros [_ [? _]] |]. intros [[? [=]] | [=]].
    + split; [by intros [? _] | by intros [_ [=]]].
    + intros c Hd Hr. rewrite !elem_of_classRemove. tauto.
Qed.

Lemma classAdd_present (c : string) (cl : list string) :
  c ∈ cl → classAdd c cl = cl.
Proof. intros Hc. unfold classAdd. by rewrite bool_decide_eq_true_2. Qed.

Lemma updateStatus_idempotent (s : State) (el : StatusEl) :
  updateStatus s (updateStatus s el) = updateStatus s el.
Proof.
  unfold updateStatus.
  destruct (winner s) as [w |]; [| destruct (isDraw (board s))]; simpl; f_equal.
  - rewrite (classAdd_present "status--done").
    + apply classRemove_absent. rewrite elem_of_classRemove. by intros [? _].
    + rewrite elem_of_classRemove, elem_of_classAdd. split; [done | by left].
  - rewrite (classAdd_present "status--done").
    + apply classAdd_present. rewrite elem_of_classAdd. by left.
    + rewrite !elem_of_classAdd. right. by left.
  - rewrite (classRemove_absent "status--done").
    + apply classRemove_absent. rewrite elem_of_classRemove. by intros [? _].
    + rewrite !elem_of_classRemove. by intros [_ [? _]].
Qed.

Lemma renderCell_idempotent (s : State) (i : nat) (btn : CellButton) :
  renderCell s i (renderCell s i btn) = renderCell s i btn.
Proof.
  unfold renderCell at 1. simpl. unfold renderCell. f_equal.
  set (fx := strict_eq _ (CMark X)). set (fo := strict_eq _ (CMark O)).
  set (fw := bool_decide _).
  set (L := classToggle "cell--win" fw
              (classToggle "cell--o" fo (classToggle "cell--x" fx (cellClasses btn)))).
  rewrite (classToggle_absorb "cell--x" fx L).
  - rewrite (classToggle_absorb "cell--o" fo L).
    + apply classToggle_absorb. unfold L. apply elem_of_classToggle_eq.
    + unfold L. rewrite elem_of_classToggle_ne by done.
      apply elem_of_classToggle_eq.
  - unfold L. rewrite !elem_of_classToggle_ne by done.
    apply elem_of_classToggle_eq.
Qed.

(** ** Rendering the cell buttons *)

Lemma renderCells_Some (s : State) (n i : nat) (btns : list CellButton) :
  i + n ≤ length btns →
  ∃ btns', renderCells s i n btns = Some btns'
           ∧ length btns' = length btns
           ∧ ∀ j, btns' !! j
                  = if decide (i ≤ j < i + n) then renderCell s j <$> btns !! j
                    else btns !! j.
Proof.
  revert i btns. induction n as [| n IH]; intros i btns Hlen; simpl.
  - exists btns. repeat split. intros j. rewrite decide_False; [done | lia].
  - destruct (lookup_lt_is_Some_2 btns i) as [btn Hbtn]; [lia |].
    rewrite Hbtn.
    destruct (IH (S i) (<[i := renderCell s i btn]> btns)) as (btns' & Hr & Hl & Hj).
    { rewrite length_insert. lia. }
    exists btns'. rewrite length_insert in Hl. repeat split; [done.. |].
    intros j. rewrite Hj.
    destruct (decide (j = i)) as [-> | Hne].
    + rewrite decide_False by lia. rewrite decide_True by lia.
      rewrite list_lookup_insert_eq by lia. by rewrite Hbtn.
    + rewrite list_lookup_insert_ne by done.
      destruct (decide (S i ≤ j < S i + n)).
      * rewrite decide_True; [done | lia].
      * rewrite decide_False; [done | lia].
Qed.

Lemma renderCells_None (s : State) (n i : nat) (btns : list CellButton) :
  n ≠ 0 → length btns < i + n → renderCells s i n btns = None.
Proof.
  revert i btns. induction n as [| n IH]; intros i btns Hn Hlen; [done |].
  simpl. destruct (btns !! i) as [btn |] eqn:Hbtn; [| done].
  apply lookup_lt_Some in Hbtn.
  apply IH; [lia |]. rewrite length_insert. lia.
Qed.

(** What [render] does to each part of the page, when it returns. *)
Lemma render_Some (s : State) (p p' : Page) :
  render s p = Some p' →
  9 ≤ length (cellButtons p)
  ∧ length (cellButtons p') = length (cellButtons p)
  ∧ (∀ j, cellButtons p' !! j
          = if decide (j < 9) then renderCell s j <$> cellButtons p !! j
            else cellButtons p !! j)
  ∧ moveCountPill p' = "Moves: " +:+ pretty (moveCount s)
  ∧ resetBtnDisabled p' = false
  ∧ clearBtnDisabled p' = false
  ∧ statusEl p' = updateStatus s (statusEl p).
Proof.
  unfold render. intros Hr.
  destruct (decide (9 ≤ length (cellButtons p))) as [Hlen | Hlen].
  - destruct (renderCells_Some s 9 0 (cellButtons p) Hlen) as (btns & Hb & Hl & Hj).
    rewrite Hb in Hr. simpl in Hr. injection Hr as <-. simpl.
    split; [done |]. split; [done |]. split; [| done].
    intros j. rewrite Hj.
    destruct (decide (j < 9)).
    + rewrite decide_True; [done | lia].
    + rewrite decide_False; [done | lia].
  - rewrite renderCells_None in Hr; [done.. | simpl; lia].
Qed.

Lemma render_is_Some (s : State) (p : Page) :
  9 ≤ length (cellButtons p) → is_Some (render s p).
Proof.
  intros Hlen. unfold render.
  destruct (renderCells_Some s 9 0 (cellButtons p) Hlen) as (btns & -> & _).
  simpl. eauto.
Qed.

Lemma render_button (s : State) (p p' : Page) (i : nat) (btn : CellButton) :
  render s p = Some p' → i < 9 → cellButtons p' !! i = Some btn →
  ∃ old, cellButtons p !! i = Some old ∧ btn = renderCell s i old.
Proof.
  intros Hr Hi Hbtn. apply render_Some in Hr as (_ & _ & Hj & _).
  rewrite Hj, decide_True in Hbtn by done.
  destruct (cellButtons p !! i) as [old |]; [| done].
  exists old. by injection Hbtn as <-.
Qed.

(** X13: [render] throws exactly when [cellButtons] holds fewer than
    nine buttons; when it returns, the array has as many buttons as
    before and those beyond the ninth are untouched. *)
Theorem render_needs_nine_buttons (s : State) (p : Page) :
  (render s p = None ↔ length (cellButtons p) < 9)
  ∧ ∀ p', render s p = Some p' →
          length (cellButtons p') = length (cellButtons p)
          ∧ ∀ j, 9 ≤ j → cellButtons p' !! j = cellButtons p !! j.
Proof.
  split.
  - split.
    + intros Hnone. destruct (decide (length (cellButtons p) < 9)); [done |].
      destruct (render_is_Some s p) as [p' Hp']; [lia | congruence].
    + intros Hlt. destruct (render s p) as [p' |] eqn:Hr; [| done].
      apply render_Some in Hr as [Hlen _]. lia.
  - intros p' Hr. apply render_Some in Hr as (_ & Hlen & Hj & _).
    split; [done |]. intros j Hge. rewrite Hj. rewrite decide_False; [done | lia].
Qed.

Lemma render_needs_nine_buttons_witness :
  render initialState
    (mkPage "Moves: 0" (take 8 (cellButtons samplePage)) false false statusEl0)
  = None.
Proof.
  apply (proj1 (render_needs_nine_buttons initialState
                  (mkPage "Moves: 0" (take 8 (cellButtons samplePage)) false false
                     statusEl0))).
  vm_compute. repeat constructor.
Defined.

(** X14: after [render], the button of a cell 0..8 is enabled exactly
    when a click on it would change the state, that is, when
    [handleMove] with its index is not turned away. *)
Theorem enabled_iff_move_accepted (s : State) (p p' : Page) (i : nat) (btn : CellButton) :
  render s p = Some p' → i < 9 → cellButtons p' !! i = Some btn →
  (disabled btn = false ↔ handleMove i s ≠ s).
Proof.
  intros Hr Hi Hbtn.
  destruct (render_button s p p' i btn Hr Hi Hbtn) as (old & _ & ->).
  rewrite handleMove_changes_iff. simpl.
  rewrite !orb_false_iff, bool_decide_eq_false.
  split.
  - intros [[Ht Hw] Hd]. repeat split; [| done..].
    destruct (winner s); [| done]. exfalso. apply Hw. eauto.
  - intros (Hw & Ht & Hd). repeat split; [done | | done].
    rewrite Hw. by intros [? ?].
Qed.

Lemma enabled_iff_move_accepted_witness :
  ∃ p' btn,
    render (playMoves [0; 4] initialState) samplePage = Some p'
    ∧ cellButtons p' !! 8 = Some btn
    ∧ (disabled btn = false ↔
       handleMove 8 (playMoves [0; 4] initialState) ≠ playMoves [0; 4] initialState).
Proof.
  destruct (render (playMoves [0; 4] initialState) samplePage) as [p' |] eqn:Hr;
    [| vm_compute in Hr; discriminate].
  destruct (cellButtons p' !! 8) as [btn |] eqn:Hbtn.
  - exists p', btn. split; [done |]. split; [done |].
    apply (enabled_iff_move_accepted _ samplePage p' 8 btn Hr); [lia | done].
  - apply render_Some in Hr as (_ & Hlen & _).
    apply lookup_ge_None in Hbtn. rewrite Hlen in Hbtn. simpl in Hbtn. lia.
Defined.

(** X15: after [render], the button of a cell 0..8 carries [cell--x]
    exactly when the cell holds X and [cell--o] exactly when it holds O
    (so never both), whatever classes it had before; its text is the
    mark of the cell, and empty for an empty cell. *)
Theorem cell_classes_show_mark (s : State) (p p' : Page) (i : nat) (btn : CellButton) :
  render s p = Some p' → i < 9 → cellButtons p' !! i = Some btn →
  ("cell--x" ∈ cellClasses btn ↔ board s !! i = Some (CMark X))
  ∧ ("cell--o" ∈ cellClasses btn ↔ board s !! i = Some (CMark O))
  ∧ textContent btn
    = match board s !! i with
      | Some (CMark m) => markText m
      | _ => EmptyString
      end.
Proof.
  intros Hr Hi Hbtn.
  destruct (render_button s p p' i btn Hr Hi Hbtn) as (old & _ & ->).
  simpl. split; [| split].
  - rewrite !elem_of_classToggle_ne by done.
    rewrite elem_of_classToggle_eq. unfold strict_eq.
    by rewrite bool_decide_eq_true, get_mark.
  - rewrite elem_of_classToggle_ne by done.
    rewrite elem_of_classToggle_eq. unfold strict_eq.
    by rewrite bool_decide_eq_true, get_mark.
  - unfold get. by destruct (board s !! i) as [[| | m] |].
Qed.

Lemma cell_classes_show_mark_witness :
  ∃ p' btn,
    render (playMoves [0; 4] initialState) samplePage = Some p'
    ∧ cellButtons p' !! 4 = Some btn
    ∧ "cell--o" ∈ cellClasses btn
    ∧ textContent btn = "O".
Proof.
  destruct (render (playMoves [0; 4] initialState) samplePage) as [p' |] eqn:Hr;
    [| vm_compute in Hr; discriminate].
  destruct (cellButtons p' !! 4) as [btn |] eqn:Hbtn.
  - exists p', btn. split; [done |]. split; [done |].
    destruct (cell_classes_show_mark _ samplePage p' 4 btn Hr ltac:(lia) Hbtn)
      as (_ & Ho & Htext).
    split; [by apply Ho | exact Htext].
  - apply render_Some in Hr as (_ & Hlen & _).
    apply lookup_ge_None in Hbtn. rewrite Hlen in Hbtn. simpl in Hbtn. lia.
Defined.

(** X16: in every state reached from the initial state, [render] gives
    [cell--win] to the button of a cell 0..8 exactly when the cell is one
    of the three of the recorded winning line; such a button shows the
    winner's mark and is disabled. *)
Theorem win_highlight (cmds : list Command) (p p' : Page) (i : nat) (btn : CellButton) :
  render (run cmds initialState) p = Some p' → i < 9 →
  cellButtons p' !! i = Some btn →
  ("cell--win" ∈ cellClasses btn ↔
   ∃ l, winningLine (run cmds initialState) = Some l ∧ i ∈ [l.1.1; l.1.2; l.2])
  ∧ ("cell--win" ∈ cellClasses btn →
     ∃ w, winner (run cmds initialState) = Some w
          ∧ textContent btn = markText w
          ∧ disabled btn = true).
Proof.
  intros Hr Hi Hbtn.
  destruct (render_button _ p p' i btn Hr Hi Hbtn) as (old & _ & ->).
  assert (Hiff : "cell--win" ∈ cellClasses (renderCell (run cmds initialState) i old) ↔
                 ∃ l, winningLine (run cmds initialState) = Some l
                      ∧ i ∈ [l.1.1; l.1.2; l.2]).
  { simpl. rewrite elem_of_classToggle_eq, bool_decide_eq_true.
    destruct (winningLine _) as [[[x y] z] |]; simpl.
    - split; [eauto |]. by intros (l & [= <-] & Hl).
    - split; [by intros ?%elem_of_nil | by intros (l & ? & _)]. }
  split; [done |].
  intros (l & Hl & Hin)%Hiff.
  destruct (cacheFresh_line _ l (cacheFresh_run cmds) Hl)
    as (_ & w & Hw & Hx & Hy & Hz).
  exists w. split; [done |].
  assert (Hcell : get (board (run cmds initialState)) i = CMark w).
  { apply get_mark. rewrite !elem_of_cons, elem_of_nil in Hin.
    destruct Hin as [-> | [-> | [-> | []]]]; done. }
  simpl. rewrite Hcell. done.
Qed.

Lemma win_highlight_witness :
  ∃ p' btn,
    render (run (CellActivated <$> scenarioA) initialState) samplePage = Some p'
    ∧ cellButtons p' !! 1 = Some btn
    ∧ "cell--win" ∈ cellClasses btn.
Proof.
  destruct (render (run (CellActivated <$> scenarioA) initialState) samplePage)
    as [p' |] eqn:Hr; [| vm_compute in Hr; discriminate].
  destruct (cellButtons p' !! 1) as [btn |] eqn:Hbtn.
  - exists p', btn. split; [done |]. split; [done |].
    apply (win_highlight (CellActivated <$> scenarioA) samplePage p' 1 btn Hr
             ltac:(lia) Hbtn).
    exists (0, 1, 2). split; [reflexivity |]. simpl. constructor 2. constructor 1.
  - apply render_Some in Hr as (_ & Hlen & _).
    apply lookup_ge_None in Hbtn. rewrite Hlen in Hbtn. simpl in Hbtn. lia.
Defined.

(** ** Rendering twice *)

Lemma renderCells_fixed (s : State) (n i : nat) (btns : list CellButton) :
  i + n ≤ length btns →
  (∀ j btn, i ≤ j < i + n → btns !! j = Some btn → renderCell s j btn = btn) →
  renderCells s i n btns = Some btns.
Proof.
  revert i. induction n as [| n IH]; intros i Hlen Hfix; simpl; [done |].
  destruct (lookup_lt_is_Some_2 btns i) as [btn Hbtn]; [lia |].
  rewrite Hbtn, (Hfix i btn) by (done || lia).
  rewrite list_insert_id by done.
  apply IH; [lia |]. intros j btn' Hj. apply Hfix. lia.
Qed.

(** X17: [render] is idempotent: rendering the same state a second time
    leaves every part of the page as the first rendering made it. *)
Theorem render_idempotent (s : State) (p p' : Page) :
  render s p = Some p' → render s p' = Some p'.
Proof.
  intros Hr.
  apply render_Some in Hr as (Hnine & Hlen & Hj & Hpill & Hreset & Hclear & Hstatus).
  unfold render. rewrite renderCells_fixed.
  - simpl. destruct p' as [pill btns r c st]. simpl in *.
    by rewrite Hpill, Hreset, Hclear, Hstatus, updateStatus_idempotent.
  - lia.
  - intros j btn Hrange Hbtn. rewrite Hj, decide_True in Hbtn by lia.
    destruct (cellButtons p !! j) as [old |]; [| done].
    injection Hbtn as <-. apply renderCell_idempotent.
Qed.

Lemma render_idempotent_witness :
  ∃ p', render (playMoves scenarioB initialState) samplePage = Some p'
        ∧ render (playMoves scenarioB initialState) p' = Some p'.
Proof.
  destruct (render (playMoves scenarioB initialState) samplePage) as [p' |] eqn:Hr;
    [| vm_compute in Hr; discriminate].
  exists p'. split; [done |]. by apply (render_idempotent _ samplePage).
Defined.

(** ** The page follows the state *)

Lemma stepApp_inSync (c : Command) (a : App) :
  9 ≤ length (cellButtons (appPage a)) → inSync a →
  ∃ a', stepApp c a = Some a'
        ∧ appState a' = step (appState a) c
        ∧ 9 ≤ length (cellButtons (appPage a'))
        ∧ inSync a'.
Proof.
  intros Hlen Hsync.
  assert (Hrender : ∀ s', ∃ p', render s' (appPage a) = Some p'
                              ∧ 9 ≤ length (cellButtons p')
                              ∧ render s' p' = Some p').
  { intros s'. destruct (render_is_Some s' (appPage a) Hlen) as [p' Hp'].
    exists p'. split; [done |]. split; [| by eapply render_idempotent].
    apply render_Some in Hp' as (_ & -> & _). done. }
  destruct c as [idx | hard]; simpl.
  - unfold handleMoveApp.
    assert (Hrejected :
              is_Some (winner (appState a))
              ∨ truthy (get (board (appState a)) idx) = true
              ∨ isDraw (board (appState a)) = true →
              ∃ a', Some a = Some a'
                    ∧ appState a' = handleMove idx (appState a)
                    ∧ 9 ≤ length (cellButtons (appPage a')) ∧ inSync a').
    { intros Hrej. exists a. by rewrite handleMove_rejected. }
    case_bool_decide as Hw; [by apply Hrejected; left |].
    destruct (truthy (get (board (appState a)) idx)) eqn:Ht;
      [by apply Hrejected; right; left |].
    destruct (isDraw (board (appState a))) eqn:Hd;
      [by apply Hrejected; right; right |].
    destruct (Hrender (handleMove idx (appState a))) as (p' & Hp' & Hl & Hfix).
    rewrite Hp'. simpl. eexists. split; [done |]. done.
  - unfold resetGameApp.
    destruct (Hrender (resetGame hard (appState a))) as (p' & Hp' & Hl & Hfix).
    rewrite Hp'. simpl. eexists. split; [done |]. done.
Qed.

Lemma runApp_inSync (cmds : list Command) (a : App) :
  9 ≤ length (cellButtons (appPage a)) → inSync a →
  ∃ a', runApp cmds a = Some a'
        ∧ appState a' = run cmds (appState a)
        ∧ inSync a'.
Proof.
  revert a. induction cmds as [| c rest IH]; intros a Hlen Hsync; simpl.
  - by exists a.
  - destruct (stepApp_inSync c a Hlen Hsync) as (a1 & -> & Hs1 & Hl1 & Hsync1).
    simpl. destruct (IH a1 Hl1 Hsync1) as (a' & Hr & Hs & Hsync').
    exists a'. split; [done |]. split; [| done]. rewrite Hs, Hs1. done.
Qed.

(** X18: started on a page with (at least) nine cell buttons, the script
    never throws, whatever cells are activated and reset buttons clicked;
    its state is the one the commands lead to, and the page always shows
    that state: rendering it once more would change nothing. *)
Theorem page_follows_state (p0 : Page) (cmds : list Command) :
  9 ≤ length (cellButtons p0) →
  ∃ a, startApp p0 ≫= runApp cmds = Some a
       ∧ appState a = run cmds initialState
       ∧ render (appState a) (appPage a) = Some (appPage a).
Proof.
  intros Hlen. unfold startApp.
  destruct (render_is_Some initialState p0 Hlen) as [p1 Hp1].
  rewrite Hp1. simpl.
  apply (runApp_inSync cmds (mkApp initialState p1)).
  - simpl. apply render_Some in Hp1 as (_ & -> & _). done.
  - unfold inSync. simpl. by eapply render_idempotent.
Qed.

Lemma page_follows_state_witness :
  ∃ a, startApp samplePage
         ≫= runApp [CellActivated 0; CellActivated 0; ResetClicked true; CellActivated 12]
       = Some a
       ∧ appState a
         = run [CellActivated 0; CellActivated 0; ResetClicked true; CellActivated 12]
             initialState
       ∧ render (appState a) (appPage a) = Some (appPage a).
Proof.
  apply (page_follows_state samplePage). vm_compute. repeat constructor.
Defined.
